(** * A shallow embedding of the chat backend's reply engine (main.py)

    The development follows the layers of [main.py]:

    - [PyStr]: Python's [str] as a list of Unicode code points, with the
      built-in methods the program calls ([strip], [split], [startswith],
      [in], [join], slices, comparison);
    - the text utilities [summarize] and [reflect];
    - the rule dispatcher [generate_ai_reply];
    - the routes ([create_conversation], [list_conversations],
      [get_messages], [add_message], [send_message]) and [serialize_doc]
      over an explicit document store, in a state-and-exception monad. *)

From Stdlib Require Import Ascii String.
From Stdlib Require Import List NArith Arith Bool Lia.
From Stdlib Require Import Sorting Permutation Orders Mergesort.
Import ListNotations.

Set Implicit Arguments.

(** ** Python strings *)

Module PyStr.

(** A Python 3 [str] is a sequence of code points; [len], slicing and
    comparison all work on code points, never on bytes. *)
Definition pystr := list N.

(** Literals are written as in the source file, which is UTF-8: the decoder
    turns the bytes of a literal into its code points. *)
Fixpoint utf8_decode (bs : list N) : pystr :=
  match bs with
  | [] => []
  | b0 :: r0 =>
      if (b0 <? 128)%N then b0 :: utf8_decode r0
      else
        match r0 with
        | [] => [b0]
        | b1 :: r1 =>
            if (b0 <? 224)%N then ((b0 - 192) * 64 + (b1 - 128))%N :: utf8_decode r1
            else
              match r1 with
              | [] => [b0; b1]
              | b2 :: r2 =>
                  if (b0 <? 240)%N
                  then ((b0 - 224) * 4096 + (b1 - 128) * 64 + (b2 - 128))%N
                         :: utf8_decode r2
                  else
                    match r2 with
                    | [] => [b0; b1; b2]
                    | b3 :: r3 =>
                        ((b0 - 240) * 262144 + (b1 - 128) * 4096
                         + (b2 - 128) * 64 + (b3 - 128))%N :: utf8_decode r3
                    end
              end
        end
  end.

Definition py (s : string) : pystr :=
  utf8_decode (map N_of_ascii (list_ascii_of_string s)).

(** The one-character strings ["\n"] and [" "]. *)
Definition NL : pystr := [10%N].
Definition SPACE : N := 32%N.

Definition str_eqb (a b : pystr) : bool :=
  if list_eq_dec N.eq_dec a b then true else false.

(** Truth value of a string: [if s], [if not s]. *)
Definition truthy (s : pystr) : bool :=
  match s with [] => false | _ :: _ => true end.

(** [str.isspace] on one code point: the characters CPython's
    [_PyUnicode_IsWhitespace] accepts. *)
Definition isspace (c : N) : bool :=
  ((9 <=? c) && (c <=? 13) || (28 <=? c) && (c <=? 32)
   || (c =? 133) || (c =? 160) || (c =? 5760)
   || (8192 <=? c) && (c <=? 8202)
   || (c =? 8232) || (c =? 8233) || (c =? 8239) || (c =? 8287)
   || (c =? 12288))%N.

Fixpoint lstrip_by (drop : N -> bool) (s : pystr) : pystr :=
  match s with
  | [] => []
  | c :: s' => if drop c then lstrip_by drop s' else s
  end.

Definition rstrip_by (drop : N -> bool) (s : pystr) : pystr :=
  rev (lstrip_by drop (rev s)).

Definition strip_by (drop : N -> bool) (s : pystr) : pystr :=
  rstrip_by drop (lstrip_by drop s).

(** [s.strip()] *)
Definition strip (s : pystr) : pystr := strip_by isspace s.

(** [s.strip(chars)] *)
Definition strip_chars (chars : pystr) (s : pystr) : pystr :=
  strip_by (fun c => existsb (N.eqb c) chars) s.

(** A finished token is kept only when it is not empty. *)
Definition push_token (w : pystr) (ws : list pystr) : list pystr :=
  match w with [] => ws | _ :: _ => w :: ws end.

(** One right-to-left pass: the token that is still open at the left end,
    and the tokens already closed to its right. *)
Fixpoint split_scan (s : pystr) : pystr * list pystr :=
  match s with
  | [] => ([], [])
  | c :: s' =>
      let (w, ws) := split_scan s' in
      if isspace c then ([], push_token w ws) else (c :: w, ws)
  end.

(** [s.split()]: maximal runs of non-whitespace, no empty token. *)
Definition split (s : pystr) : list pystr :=
  let (w, ws) := split_scan s in push_token w ws.

(** [s.split(sep)] for a one-character separator: every occurrence cuts,
    empty pieces are kept, and the empty string gives one empty piece. *)
Fixpoint split_on (sep : N) (s : pystr) : list pystr :=
  match s with
  | [] => [[]]
  | c :: s' =>
      if (c =? sep)%N then [] :: split_on sep s'
      else
        match split_on sep s' with
        | [] => [[c]]
        | w :: ws => (c :: w) :: ws
        end
  end.

(** [s.startswith(p)] *)
Fixpoint startswith (s p : pystr) : bool :=
  match p, s with
  | [], _ => true
  | _ :: _, [] => false
  | a :: p', b :: s' => (a =? b)%N && startswith s' p'
  end.

(** [needle in s] *)
Fixpoint contains (needle s : pystr) : bool :=
  startswith s needle
  || match s with
     | [] => false
     | _ :: s' => contains needle s'
     end.

(** [sep.join(parts)] *)
Fixpoint join (sep : pystr) (parts : list pystr) : pystr :=
  match parts with
  | [] => []
  | [w] => w
  | w :: ws => w ++ sep ++ join sep ws
  end.

(** [a <= b] on strings: lexicographic on code points. *)
Fixpoint str_leb (a b : pystr) : bool :=
  match a, b with
  | [], _ => true
  | _ :: _, [] => false
  | x :: a', y :: b' => (x <? y)%N || (x =? y)%N && str_leb a' b'
  end.

(** [set(l)] keeps one copy of each element; the order of a set is not
    specified, and the program only ever sorts it. *)
Definition set_of (l : list pystr) : list pystr :=
  nodup (list_eq_dec N.eq_dec) l.

(** The order [sorted] uses, packaged for the library's merge sort. *)
Module StrOrder <: TotalLeBool.
Definition t := pystr.
Definition leb := str_leb.
Theorem leb_total : forall a b, leb a b = true \/ leb b a = true.
Proof.
  induction a as [|x a IH]; intros [|y b]; simpl; auto.
  destruct (N.ltb_spec x y), (N.ltb_spec y x), (N.eqb_spec x y),
    (N.eqb_spec y x); simpl; auto; lia.
Qed.
End StrOrder.

Module StrSort := Sort StrOrder.

(** [sorted(l)] *)
Definition sorted (l : list pystr) : list pystr := StrSort.sort l.

End PyStr.

Import PyStr.

(** ** Text utilities *)

Definition summarize (text : pystr) : pystr :=
  let words := split text in
  if length words <=? 12 then text
  else join (py " ") (firstn 12 words) ++ py " …".

(** The list [sorted(set([w for w in words if len(w) > 5]))[:6]] that
    [reflect] joins into [key]. *)
Definition reflect_keys (text : pystr) : list pystr :=
  let words := map (strip_chars (py ".,!?")) (split text) in
  firstn 6 (sorted (set_of (filter (fun w => 5 <? length w) words))).

Definition reflect (text : pystr) : pystr :=
  let key := join (py ", ") (reflect_keys text) in
  if truthy key then py "key points → " ++ key
  else py "sounds interesting!".

(** ** The reply engine *)

(** [prompt or ""] on an argument that may be [None]. *)
Definition or_empty (prompt : option pystr) : pystr :=
  match prompt with
  | Some p => if truthy p then p else py ""
  | None => py ""
  end.

Definition fallback_reply : pystr := py "I'm here! Ask me anything.".
Definition greeting_reply : pystr := py "Hey there! How can I help you today?".
Definition help_reply : pystr :=
  py "I can answer questions, summarize, or brainstorm ideas. Just type your message!".

Section ReplyEngine.

(** [str.lower]: Python's Unicode case mapping, whose tables are part of
    the interpreter and not of this program. *)
Variable str_lower : pystr -> pystr.

Definition generate_ai_reply (prompt : option pystr) : pystr :=
  let prompt := strip (or_empty prompt) in
  if negb (truthy prompt) then fallback_reply
  else
    let lower := str_lower prompt in
    if existsb (fun g => contains g lower) [py "hello"; py "hi"; py "hey"]
    then greeting_reply
    else if startswith lower (py "/help") || contains (py "help") lower
    then help_reply
    else if startswith lower (py "/summarize") then
      let text := strip (skipn (length (py "/summarize")) prompt) in
      py "Summary: " ++ summarize text
    else if startswith lower (py "/todo") then
      let items := map strip (skipn 1 (split_on SPACE prompt)) in
      let bullets := join NL (map (fun i => py "• " ++ i) (filter truthy items)) in
      if truthy bullets then py "Here’s your checklist:" ++ NL ++ bullets
      else py "Provide items after /todo"
    else
      py "You said: '" ++ prompt ++ py "'. Here's a helpful thought: "
        ++ reflect prompt.

End ReplyEngine.

(** On ASCII input [str.lower] maps [A-Z] to [a-z] and keeps every other
    character. *)
Definition ascii_lower (s : pystr) : pystr :=
  map (fun c => if (65 <=? c) && (c <=? 90) then c + 32 else c)%N s.

Definition is_ascii (s : pystr) : bool := forallb (fun c => c <? 128)%N s.

(** What the theorems on concrete prompts assume of [str.lower]. *)
Definition lowers_ascii (str_lower : pystr -> pystr) : Prop :=
  forall s, is_ascii s = true -> str_lower s = ascii_lower s.

(** ** Schemas *)

(** The two values the pattern [^(user|assistant)$] of [MessageCreate.role]
    lets through. *)
Inductive Role := user | assistant.

Record MessageCreate := { mc_role : Role; mc_content : pystr }.

Record SendMessageRequest := { req_content : pystr }.

Record MessageOut := {
  id : pystr;
  conversation_id : pystr;
  role : Role;
  content : pystr
}.

Record ConversationCreate := {
  cc_title : pystr;
  cc_created_by : option pystr
}.

Record ConversationOut := {
  co_id : pystr;
  co_title : pystr;
  co_created_by : option pystr
}.

(** [out.sort(key=lambda x: x["id"], reverse=True)]: Python's sort is
    stable, also with [reverse=True], so of two entries with the same id
    the one that came first stays first. *)
Fixpoint insert_desc (x : ConversationOut) (l : list ConversationOut)
  : list ConversationOut :=
  match l with
  | [] => [x]
  | y :: l' =>
      if str_leb (co_id y) (co_id x) then x :: l else y :: insert_desc x l'
  end.

Definition sort_by_id_desc (out : list ConversationOut) : list ConversationOut :=
  fold_right insert_desc [] out.

(** [HTTPException(status_code=..., detail=...)] *)
Record HTTPException := { status_code : N; detail : pystr }.

Definition database_not_available : HTTPException :=
  {| status_code := 500; detail := py "Database not available" |}.
Definition invalid_conversation_id : HTTPException :=
  {| status_code := 400; detail := py "Invalid conversation id" |}.
Definition conversation_not_found : HTTPException :=
  {| status_code := 404; detail := py "Conversation not found" |}.

(** A call either returns a value or raises. *)
Inductive outcome (A : Type) :=
| Returns (a : A)
| Raises (e : HTTPException).
Arguments Raises {A} e.

(** ** The document store *)

(** What the routes use of [bson.ObjectId]. *)
Class BsonObjectId := {
  ObjectId : Type;
  (** [ObjectId.is_valid(s)] *)
  is_valid : pystr -> bool;
  (** [ObjectId(s)], called on valid strings only *)
  ObjectId_of : pystr -> ObjectId;
  (** [a == b] *)
  oid_eqb : ObjectId -> ObjectId -> bool;
  (** [str(oid)] *)
  oid_str : ObjectId -> pystr
}.

Section Routes.

Context {bson : BsonObjectId}.
Variable str_lower : pystr -> pystr.

Record ConversationDoc := {
  conv_id : ObjectId;
  title : pystr;
  created_by : option pystr
}.

Record MessageDoc := {
  msg_id : ObjectId;
  msg_conversation_id : pystr;
  msg_role : Role;
  msg_content : pystr
}.

(** The two collections, each in creation order (oldest first). *)
Record Store := {
  conversation : list ConversationDoc;
  message : list MessageDoc
}.

(** The identifier the store gives the next document it inserts. *)
Variable new_id : Store -> ObjectId.

(** A route runs against the global [db], which is [None] when no database
    is configured; what it has written by the time it raises stays
    written. *)
Definition route (A : Type) := option Store -> outcome A * option Store.

Definition ret {A} (a : A) : route A := fun db => (Returns a, db).

Definition raise {A} (e : HTTPException) : route A := fun db => (Raises e, db).

Definition bind {A B} (m : route A) (k : A -> route B) : route B :=
  fun db =>
    match m db with
    | (Returns a, db') => k a db'
    | (Raises e, db') => (Raises e, db')
    end.

Notation "x <- m ;; k" := (bind m (fun x => k))
  (at level 61, m at next level, right associativity).
Notation "m ;; k" := (bind m (fun _ => k))
  (at level 61, right associativity).

(** [if cond: raise e] *)
Definition raise_if (cond : bool) (e : HTTPException) : route unit :=
  if cond then raise e else ret tt.

(** [db is None] *)
Definition db_is_None : route bool :=
  fun db => (Returns (match db with None => true | Some _ => false end), db).

(** [db["conversation"].find_one({"_id": oid})] *)
Definition find_one_conversation (oid : ObjectId) : route (option ConversationDoc) :=
  fun db =>
    match db with
    | None => (Raises database_not_available, db)
    | Some st =>
        (Returns (find (fun d => oid_eqb (conv_id d) oid) (conversation st)), db)
    end.

(** Modelled from the spec: [create_document] of the [database] module,
    which is not among the sources. The spec gives it as
    [insert(collection, doc) -> identifier]: the document is added to the
    collection under an identifier the store assigns, and that identifier
    is returned (here as the string the route puts in its answer). *)
Definition create_document_message
    (conversation_id : pystr) (msg_data : MessageCreate) : route pystr :=
  fun db =>
    match db with
    | None => (Raises database_not_available, db)
    | Some st =>
        let doc := {| msg_id := new_id st;
                      msg_conversation_id := conversation_id;
                      msg_role := mc_role msg_data;
                      msg_content := mc_content msg_data |} in
        (Returns (oid_str (new_id st)),
         Some {| conversation := conversation st;
                 message := message st ++ [doc] |})
    end.

Definition add_message (conversation_id : pystr) (payload : MessageCreate)
  : route MessageOut :=
  none <- db_is_None ;;
  raise_if none database_not_available ;;
  raise_if (negb (is_valid conversation_id)) invalid_conversation_id ;;
  conv <- find_one_conversation (ObjectId_of conversation_id) ;;
  match conv with
  | None => raise conversation_not_found
  | Some _ =>
      inserted_id <- create_document_message conversation_id payload ;;
      ret {| id := inserted_id;
             conversation_id := conversation_id;
             role := mc_role payload;
             content := mc_content payload |}
  end.

Definition send_message (conversation_id : pystr) (req : SendMessageRequest)
  : route MessageOut :=
  none <- db_is_None ;;
  raise_if none database_not_available ;;
  raise_if (negb (is_valid conversation_id)) invalid_conversation_id ;;
  let user_msg := {| mc_role := user; mc_content := req_content req |} in
  _ <- add_message conversation_id user_msg ;;
  let reply_text := generate_ai_reply str_lower (Some (req_content req)) in
  let assistant_msg := {| mc_role := assistant; mc_content := reply_text |} in
  created <- add_message conversation_id assistant_msg ;;
  ret created.

(** [db["message"].find({"conversation_id": cid}).sort("created_at", 1)],
    answered as [MessageOut] records; the collection is already in creation
    order. *)
Definition get_messages (conversation_id : pystr) : route (list MessageOut) :=
  none <- db_is_None ;;
  raise_if none database_not_available ;;
  raise_if (negb (is_valid conversation_id)) invalid_conversation_id ;;
  fun db =>
    match db with
    | None => (Raises database_not_available, db)
    | Some st =>
        let docs :=
          filter (fun d => str_eqb (msg_conversation_id d) conversation_id)
                 (message st) in
        (Returns
           (map (fun d => {| id := oid_str (msg_id d);
                             conversation_id := msg_conversation_id d;
                             role := msg_role d;
                             content := msg_content d |}) docs),
         db)
    end.

(** Modelled from the spec: [create_document] again, on the conversation
    collection. *)
Definition create_document_conversation (data : ConversationCreate)
  : route pystr :=
  fun db =>
    match db with
    | None => (Raises database_not_available, db)
    | Some st =>
        let doc := {| conv_id := new_id st;
                      title := cc_title data;
                      created_by := cc_created_by data |} in
        (Returns (oid_str (new_id st)),
         Some {| conversation := conversation st ++ [doc];
                 message := message st |})
    end.

Definition create_conversation (payload : ConversationCreate)
  : route ConversationOut :=
  none <- db_is_None ;;
  raise_if none database_not_available ;;
  inserted_id <- create_document_conversation payload ;;
  ret {| co_id := inserted_id;
         co_title := cc_title payload;
         co_created_by := cc_created_by payload |}.

(** [get_documents("conversation", {}, limit=n)] of the [database] module,
    which is not among the sources: a query, which documents it picks is
    left open. *)
Variable get_documents_conversation : Store -> nat -> list ConversationDoc.

Definition list_conversations : route (list ConversationOut) :=
  none <- db_is_None ;;
  raise_if none database_not_available ;;
  fun db =>
    match db with
    | None => (Raises database_not_available, db)
    | Some st =>
        let docs := get_documents_conversation st 100 in
        let out :=
          map (fun d => {| co_id := oid_str (conv_id d);
                           co_title := title d;
                           co_created_by := created_by d |}) docs in
        (Returns (sort_by_id_desc out), db)
    end.

(** The values of a document as [serialize_doc] tells them apart: an
    ObjectId, or a value of any other kind ([A]), among them strings. *)
Inductive value (A : Type) :=
| VObjectId (o : ObjectId)
| VOther (a : A).
Arguments VObjectId {A} o.

(** A [dict] with string keys, as its items in insertion order. *)
Definition dict (A : Type) := list (pystr * value A).

Section Serialize.

Variable A : Type.
(** A string as a value of any other kind. *)
Variable of_str : pystr -> A.

Definition serialize_value (v : value A) : value A :=
  match v with
  | VObjectId o => VOther (of_str (oid_str o))
  | VOther a => VOther a
  end.

Definition serialize_doc (doc : dict A) : dict A :=
  map (fun kv => (fst kv, serialize_value (snd kv))) doc.

End Serialize.

End Routes.

Arguments VObjectId {bson A} o.
Arguments VOther {bson A} a.

(** ** A concrete ObjectId, for running the routes

    An instance to run the routes on examples: it takes a string for valid
    when it has 24 hexadecimal digits, and keeps the ObjectId as these
    digits in lower case. bson's own test is wider (it also lets through
    24-character strings of hex pairs and ASCII whitespace); the theorems
    are stated over the abstract [is_valid] and do not depend on this
    instance. *)

Definition is_hex (c : N) : bool :=
  ((48 <=? c) && (c <=? 57) || (65 <=? c) && (c <=? 70)
   || (97 <=? c) && (c <=? 102))%N.

Definition hex_ObjectId : BsonObjectId :=
  {| ObjectId := pystr;
     is_valid := fun s => (length s =? 24) && forallb is_hex s;
     ObjectId_of := ascii_lower;
     oid_eqb := str_eqb;
     oid_str := fun o => o |}.

Definition hex_digit (d : N) : N := (if d <? 10 then 48 + d else 87 + d)%N.

Fixpoint hex_digits (n : nat) (v : N) : pystr :=
  match n with
  | 0 => []
  | S n' => hex_digits n' (v / 16) ++ [hex_digit (v mod 16)]
  end.

(** A store that numbers its documents: the next identifier is the number
    of documents held, plus one. *)
Definition counting_id (st : @Store hex_ObjectId) : @ObjectId hex_ObjectId :=
  hex_digits 24 (N.of_nat (length (conversation st) + length (message st)) + 1).

(** * Properties *)

(** ** Tokens of [split] *)

Definition no_space (w : pystr) : Prop := Forall (fun c => isspace c = false) w.

Definition is_token (w : pystr) : Prop := w <> [] /\ no_space w.

Lemma push_token_tokens (w : pystr) (ws : list pystr) :
  no_space w -> Forall is_token ws -> Forall is_token (push_token w ws).
Proof.
  intros Hw Hws. destruct w as [|c w]; simpl; [assumption|].
  constructor; [split; [discriminate | assumption] | assumption].
Qed.

Lemma split_scan_tokens (s : pystr) :
  no_space (fst (split_scan s)) /\ Forall is_token (snd (split_scan s)).
Proof.
  induction s as [|c s [IHw IHws]]; simpl.
  - split; constructor.
  - destruct (split_scan s) as [w ws]; simpl in *.
    destruct (isspace c) eqn:Ec; simpl; split.
    + constructor.
    + now apply push_token_tokens.
    + now constructor.
    + assumption.
Qed.

Lemma split_tokens (s : pystr) : Forall is_token (split s).
Proof.
  unfold split. pose proof (split_scan_tokens s) as [Hw Hws].
  destruct (split_scan s) as [w ws]. now apply push_token_tokens.
Qed.

(** A run of non-blank characters followed by a blank is cut off as one
    token, whatever follows. *)
Lemma split_scan_run (w : pystr) (c : N) (rest : pystr) :
  no_space w -> isspace c = true ->
  split_scan (w ++ c :: rest) = (w, split rest).
Proof.
  intros Hw Hc. induction Hw as [|x w Hx Hw IH]; simpl.
  - unfold split. destruct (split_scan rest) as [w0 ws0]. now rewrite Hc.
  - rewrite IH, Hx. reflexivity.
Qed.

Lemma split_run (w : pystr) (c : N) (rest : pystr) :
  no_space w -> isspace c = true ->
  split (w ++ c :: rest) = push_token w (split rest).
Proof.
  intros Hw Hc. unfold split at 1. now rewrite split_scan_run.
Qed.

Lemma split_scan_no_space (w : pystr) : no_space w -> split_scan w = (w, []).
Proof.
  induction 1 as [|x w Hx Hw IH]; simpl; [reflexivity|].
  now rewrite IH, Hx.
Qed.

Lemma split_token (t : pystr) : is_token t -> split t = [t].
Proof.
  intros [Hne Ht]. unfold split. rewrite split_scan_no_space by assumption.
  destruct t; [contradiction | reflexivity].
Qed.

(** Joining tokens with single spaces and appending one more token after a
    space splits back into exactly those tokens. *)
Lemma split_join_then (ws : list pystr) (t : pystr) :
  Forall is_token ws -> is_token t ->
  split (join (py " ") ws ++ py " " ++ t) = ws ++ [t].
Proof.
  intros Hws Ht. change (py " ") with [SPACE].
  induction Hws as [|w ws [Hne Hw] Hws IH].
  - simpl. change (SPACE :: t) with ([] ++ SPACE :: t).
    rewrite split_run by (constructor || reflexivity).
    simpl. now apply split_token.
  - destruct ws as [|w' ws].
    + simpl. rewrite split_run by (assumption || reflexivity).
      rewrite split_token by assumption.
      destruct w; [contradiction | reflexivity].
    + change (join [SPACE] (w :: w' :: ws))
        with (w ++ [SPACE] ++ join [SPACE] (w' :: ws)).
      rewrite <- !app_assoc. simpl app at 2.
      rewrite split_run by (assumption || reflexivity).
      simpl app in IH. rewrite IH.
      destruct w; [contradiction | reflexivity].
Qed.

Lemma Forall_firstn {A} (P : A -> Prop) (n : nat) (l : list A) :
  Forall P l -> Forall P (firstn n l).
Proof.
  intros H. rewrite <- (firstn_skipn n l) in H.
  now apply Forall_app in H.
Qed.

(** ** [summarize] *)

Lemma summarize_short (x : pystr) :
  length (split x) <= 12 -> summarize x = x.
Proof.
  intros H. unfold summarize. apply Nat.leb_le in H. now rewrite H.
Qed.

Lemma ellipsis_token : is_token (py "…").
Proof.
  split; [discriminate|]. repeat constructor.
Qed.

(** The tokens of a truncated summary: the twelve words kept, then the
    ellipsis. *)
Lemma split_summary (x : pystr) :
  12 < length (split x) ->
  split (join (py " ") (firstn 12 (split x)) ++ py " …")
  = firstn 12 (split x) ++ [py "…"].
Proof.
  intros H. change (py " …") with (py " " ++ py "…").
  apply split_join_then.
  - apply Forall_firstn, split_tokens.
  - exact ellipsis_token.
Qed.

(** C7. On an input of at most twelve whitespace-separated tokens
    [summarize] returns the input unchanged, and so applying it twice is
    the same as applying it once. *)
Theorem summarize_idempotent_short (x : pystr) :
  length (split x) <= 12 ->
  summarize x = x /\ summarize (summarize x) = summarize x.
Proof.
  intros H. pose proof (summarize_short x H) as E.
  split; [exact E|]. rewrite E. exact E.
Qed.

Lemma summarize_idempotent_short_witness :
  length (split (py "  one two   three ")) <= 12
  /\ (summarize (py "  one two   three ") = py "  one two   three "
      /\ summarize (summarize (py "  one two   three "))
         = summarize (py "  one two   three ")).
Proof.
  split.
  - vm_compute. lia.
  - apply summarize_idempotent_short. vm_compute. lia.
Defined.

(** C9. [summarize] is idempotent on every input: a truncated summary
    splits into the twelve words kept and the ellipsis, thirteen tokens, so
    summarizing it again rebuilds the same string. *)
Theorem summarize_idempotent (x : pystr) :
  summarize (summarize x) = summarize x.
Proof.
  destruct (Nat.leb_spec (length (split x)) 12) as [Hle | Hgt].
  - now rewrite !summarize_short by (rewrite ?summarize_short; assumption).
  - assert (Hx : summarize x
                 = join (py " ") (firstn 12 (split x)) ++ py " …").
    { unfold summarize. apply Nat.leb_gt in Hgt. now rewrite Hgt. }
    rewrite Hx at 2. rewrite Hx at 1. unfold summarize at 1.
    rewrite split_summary by assumption.
    assert (Hlen : length (firstn 12 (split x)) = 12)
      by (rewrite length_firstn; lia).
    rewrite length_app, Hlen.
    change (12 + length [py "…"] <=? 12) with false. cbv iota.
    rewrite firstn_app, Hlen, Nat.sub_diag, firstn_O, app_nil_r.
    rewrite firstn_all2 by lia. reflexivity.
Qed.

(** ** [reflect] *)

Lemma str_leb_trans : Transitive (fun a b : pystr => is_true (str_leb a b)).
Proof.
  unfold is_true. intros a.
  induction a as [|x a IH]; intros [|y b] [|z c]; simpl; try easy.
  intros H1 H2.
  destruct (N.ltb_spec x y), (N.eqb_spec x y), (N.ltb_spec y z),
    (N.eqb_spec y z), (N.ltb_spec x z), (N.eqb_spec x z);
    simpl in *; try easy; try lia.
  now apply IH with b.
Qed.

Lemma In_firstn {A} (n : nat) (l : list A) (x : A) :
  In x (firstn n l) -> In x l.
Proof.
  intros H. rewrite <- (firstn_skipn n l). apply in_or_app. now left.
Qed.

Lemma StronglySorted_firstn {A} (R : A -> A -> Prop) (n : nat) (l : list A) :
  StronglySorted R l -> StronglySorted R (firstn n l).
Proof.
  intros H. revert n.
  induction H as [|a l Hl IH Ha]; intros [|n]; simpl; try constructor.
  - apply IH.
  - now apply Forall_firstn.
Qed.

Lemma NoDup_firstn {A} (n : nat) (l : list A) : NoDup l -> NoDup (firstn n l).
Proof.
  intros H. rewrite <- (firstn_skipn n l) in H.
  eapply NoDup_app_remove_r; eassumption.
Qed.

Lemma filter_none {A} (f : A -> bool) (l : list A) :
  existsb f l = false -> filter f l = [].
Proof.
  induction l as [|a l IH]; simpl; [reflexivity|].
  intros H. apply orb_false_iff in H as [Ha Hl]. rewrite Ha. now apply IH.
Qed.

Lemma join_truthy (sep w : pystr) (ws : list pystr) :
  w <> [] -> truthy (join sep (w :: ws)) = true.
Proof.
  intros Hw. destruct w as [|c w]; [contradiction|]. now destruct ws.
Qed.

Lemma reflect_keys_In (text k : pystr) :
  In k (reflect_keys text) ->
  5 < length k /\ In k (map (strip_chars (py ".,!?")) (split text)).
Proof.
  unfold reflect_keys, sorted, set_of. intros H.
  apply In_firstn in H.
  apply (Permutation_in _ (Permutation_sym (StrSort.Permuted_sort _))) in H.
  apply nodup_In, filter_In in H. destruct H as [Hin Hlen].
  apply Nat.ltb_lt in Hlen. now split.
Qed.

Lemma reflect_keys_some (text : pystr) :
  existsb (fun w => 5 <? length w)
          (map (strip_chars (py ".,!?")) (split text)) = true ->
  exists k ks, reflect_keys text = k :: ks.
Proof.
  intros H. apply existsb_exists in H as (w & Hin & Hlen).
  assert (Hs : In w (sorted (set_of (filter (fun w => 5 <? length w)
                 (map (strip_chars (py ".,!?")) (split text)))))).
  { unfold sorted, set_of.
    apply (Permutation_in _ (StrSort.Permuted_sort _)).
    apply nodup_In, filter_In. now split. }
  unfold reflect_keys.
  destruct (sorted _) as [|k l]; [contradiction|].
  now exists k, (firstn 5 l).
Qed.

Lemma reflect_keys_none (text : pystr) :
  existsb (fun w => 5 <? length w)
          (map (strip_chars (py ".,!?")) (split text)) = false ->
  reflect_keys text = [].
Proof.
  intros H. unfold reflect_keys. now rewrite (filter_none _ _ H).
Qed.

(** C6. The tokens [reflect] prints are sorted by code-point order, free of
    duplicates, each a stripped word of the input longer than five
    characters, and at most six; [reflect] prints them after the
    "key points" prefix when the input has such a word, and answers with
    the fallback sentence when it has none. *)
Theorem reflect_key_points (text : pystr) :
  let words := map (strip_chars (py ".,!?")) (split text) in
  let keys := reflect_keys text in
  StronglySorted (fun a b => str_leb a b = true) keys
  /\ NoDup keys
  /\ Forall (fun k => 5 < length k /\ In k words) keys
  /\ length keys <= 6
  /\ reflect text
     = if existsb (fun w => 5 <? length w) words
       then py "key points → " ++ join (py ", ") keys
       else py "sounds interesting!".
Proof.
  intros words keys. repeat split.
  - apply StronglySorted_firstn.
    apply StrSort.StronglySorted_sort, str_leb_trans.
  - apply NoDup_firstn.
    eapply Permutation_NoDup; [apply StrSort.Permuted_sort|].
    apply NoDup_nodup.
  - apply Forall_forall. intros k Hk. now apply reflect_keys_In.
  - apply firstn_le_length.
  - unfold reflect. fold keys.
    destruct (existsb (fun w => 5 <? length w) words) eqn:E.
    + destruct (reflect_keys_some text E) as (k & ks & Hk).
      assert (Hin : In k keys) by (unfold keys; rewrite Hk; now left).
      apply reflect_keys_In in Hin as [Hlen _].
      unfold keys. rewrite Hk, join_truthy; [reflexivity|].
      intros ->. simpl in Hlen. lia.
    + unfold keys. now rewrite (reflect_keys_none text E).
Qed.

(** ** [generate_ai_reply] *)

Lemma or_empty_Some (p : pystr) : or_empty (Some p) = p.
Proof. now destruct p. Qed.

Lemma lowers_ascii_ascii_lower : lowers_ascii ascii_lower.
Proof. intros s _. reflexivity. Qed.

(** Trailing whitespace is all [rstrip] removes: a string that ends with a
    token is left whole. *)
Lemma rstrip_by_token (l w : pystr) :
  is_token w -> rstrip_by isspace (l ++ w) = l ++ w.
Proof.
  intros [Hne Hw]. unfold rstrip_by. rewrite rev_app_distr.
  destruct (rev w) as [|c r] eqn:E.
  - apply (f_equal (@rev N)) in E. rewrite rev_involutive in E.
    contradiction.
  - assert (Hc : isspace c = false).
    { unfold no_space in Hw. rewrite Forall_forall in Hw. apply Hw.
      apply in_rev. rewrite E. now left. }
    simpl. rewrite Hc.
    change (c :: r ++ rev l) with ((c :: r) ++ rev l).
    now rewrite <- E, <- rev_app_distr, rev_involutive.
Qed.

(** A string that starts with a non-blank character and ends with a token
    has nothing to trim. *)
Lemma strip_keeps (c : N) (l w : pystr) :
  isspace c = false -> is_token w -> strip ((c :: l) ++ w) = (c :: l) ++ w.
Proof.
  intros Hc Hw. unfold strip, strip_by. cbn [app lstrip_by]. rewrite Hc.
  change (c :: l ++ w) with ((c :: l) ++ w). now apply rstrip_by_token.
Qed.

Lemma strip_space_then (c : N) (l w : pystr) :
  isspace c = false -> is_token w ->
  strip ((SPACE :: c :: l) ++ w) = (c :: l) ++ w.
Proof.
  intros Hc Hw. unfold strip, strip_by. cbn [app lstrip_by].
  change (isspace SPACE) with true. cbv iota. rewrite Hc.
  change (c :: l ++ w) with ((c :: l) ++ w). now apply rstrip_by_token.
Qed.

Lemma skipn_length_app {A} (a b : list A) : skipn (length a) (a ++ b) = b.
Proof.
  induction a as [|x a IH]; [reflexivity | exact IH].
Qed.

Lemma startswith_summarize_not_help (lower : pystr) :
  startswith lower (py "/summarize") = true ->
  startswith lower (py "/help") = false.
Proof.
  change (py "/summarize") with (47 :: 115 :: py "ummarize")%N.
  change (py "/help") with (47 :: 104 :: py "elp")%N.
  destruct lower as [|a [|b l]]; cbn [startswith]; try discriminate.
  - now rewrite andb_false_r.
  - intros H. apply andb_true_iff in H as [_ H].
    apply andb_true_iff in H as [H _]. apply N.eqb_eq in H. subst b.
    change (104 =? 115)%N with false. now rewrite andb_false_r.
Qed.

Section ReplyEngineFacts.

Variable str_lower : pystr -> pystr.

Lemma generate_ai_reply_blank (p : pystr) :
  strip p = [] -> generate_ai_reply str_lower (Some p) = fallback_reply.
Proof.
  intros H. unfold generate_ai_reply. now rewrite or_empty_Some, H.
Qed.

(** C8. The empty prompt and the prompt of three spaces get the same fixed
    fallback, as does every prompt that is empty once trimmed. *)
Theorem generate_ai_reply_empty_and_blank :
  generate_ai_reply str_lower (Some (py ""))
  = generate_ai_reply str_lower (Some (py "   "))
  /\ generate_ai_reply str_lower (Some (py "")) = fallback_reply
  /\ generate_ai_reply str_lower (Some (py "   ")) = fallback_reply
  /\ forall p, strip p = [] ->
               generate_ai_reply str_lower (Some p) = fallback_reply.
Proof.
  assert (H0 : strip (py "") = []) by reflexivity.
  assert (H3 : strip (py "   ") = []) by reflexivity.
  split; [|split; [|split]].
  - now rewrite !generate_ai_reply_blank.
  - now apply generate_ai_reply_blank.
  - now apply generate_ai_reply_blank.
  - exact generate_ai_reply_blank.
Qed.

(** C10. A prompt of [None] is replaced by the empty string before
    anything else happens: the call returns, with the same answer as for
    [""], the fixed fallback. *)
Theorem generate_ai_reply_None :
  generate_ai_reply str_lower None = generate_ai_reply str_lower (Some (py ""))
  /\ generate_ai_reply str_lower None = fallback_reply.
Proof.
  assert (E : or_empty None = or_empty (Some (py ""))) by reflexivity.
  unfold generate_ai_reply. rewrite E, or_empty_Some.
  split; reflexivity.
Qed.


(** The engine reads [str_lower] only at the trimmed prompt, so on an
    ASCII prompt any case mapping that is right on ASCII gives the same
    reply. *)
Lemma generate_ai_reply_ascii (prompt : option pystr) :
  lowers_ascii str_lower ->
  is_ascii (strip (or_empty prompt)) = true ->
  generate_ai_reply str_lower prompt = generate_ai_reply ascii_lower prompt.
Proof.
  intros Hl Ha. unfold generate_ai_reply. now rewrite (Hl _ Ha).
Qed.

(** C3, as amended. The prompt of the example holds "hi" (in "thirteen"),
    so the greeting rule, which comes first, answers it. The /summarize
    rule answers "/summarize one ... twelve w" for every single word [w]
    such that the lower-cased prompt starts with "/summarize" and holds
    none of "hello", "hi", "hey", "help" ("fourteen" is one): the reply is
    the first twelve words and the ellipsis. *)
Theorem generate_ai_reply_summarize_command :
  lowers_ascii str_lower ->
  contains (py "hi") (py "thirteen") = true
  /\ generate_ai_reply str_lower
       (Some (py "/summarize one two three four five six seven eight nine ten eleven twelve thirteen"))
     = greeting_reply
  /\ generate_ai_reply str_lower
       (Some (py "/summarize one two three four five six seven eight nine ten eleven twelve fourteen"))
     = py "Summary: one two three four five six seven eight nine ten eleven twelve …"
  /\ forall w : pystr,
       let prompt :=
         py "/summarize one two three four five six seven eight nine ten eleven twelve "
           ++ w in
       let lower := str_lower prompt in
       is_token w ->
       startswith lower (py "/summarize") = true ->
       contains (py "hello") lower = false ->
       contains (py "hi") lower = false ->
       contains (py "hey") lower = false ->
       contains (py "help") lower = false ->
       generate_ai_reply str_lower (Some prompt)
       = py "Summary: one two three four five six seven eight nine ten eleven twelve …".
Proof.
  intros Hl. split; [reflexivity|].
  split; [|split];
    try (rewrite generate_ai_reply_ascii by (assumption || reflexivity);
         vm_compute; reflexivity).
  intros w prompt lower Hw Hsum Hhello Hhi Hhey Hhelp.
  pose (words := [py "one"; py "two"; py "three"; py "four"; py "five";
                  py "six"; py "seven"; py "eight"; py "nine"; py "ten";
                  py "eleven"; py "twelve"]).
  assert (Hhead :
            py "/summarize one two three four five six seven eight nine ten eleven twelve "
            = 47%N :: py "summarize one two three four five six seven eight nine ten eleven twelve ")
    by (vm_compute; reflexivity).
  assert (Hcmd :
            py "/summarize one two three four five six seven eight nine ten eleven twelve "
            = py "/summarize"
                ++ (SPACE :: 111%N
                      :: py "ne two three four five six seven eight nine ten eleven twelve "))
    by (vm_compute; reflexivity).
  assert (Hwords :
            111%N :: py "ne two three four five six seven eight nine ten eleven twelve "
            = join (py " ") words ++ py " ")
    by (vm_compute; reflexivity).
  assert (Hout : py "Summary: " ++ join (py " ") words ++ py " …"
                 = py "Summary: one two three four five six seven eight nine ten eleven twelve …")
    by (vm_compute; reflexivity).
  assert (Htok : Forall is_token words).
  { repeat (constructor; [split; [discriminate | repeat constructor]|]).
    constructor. }
  assert (Hstrip : strip prompt = prompt).
  { unfold prompt. rewrite Hhead. now apply strip_keeps. }
  assert (Htruthy : truthy prompt = true)
    by (unfold prompt; rewrite Hhead; reflexivity).
  assert (Htext : strip (skipn (length (py "/summarize")) prompt)
                  = join (py " ") words ++ py " " ++ w).
  { unfold prompt. rewrite Hcmd, <- app_assoc, skipn_length_app.
    rewrite strip_space_then by (reflexivity || assumption).
    rewrite Hwords. now rewrite <- app_assoc. }
  unfold generate_ai_reply. rewrite or_empty_Some, Hstrip. fold lower.
  rewrite Htruthy. cbn [negb existsb].
  rewrite Hhello, Hhi, Hhey, Hhelp.
  rewrite (startswith_summarize_not_help _ Hsum), Hsum. cbn [orb].
  rewrite Htext. unfold summarize.
  rewrite (split_join_then Htok Hw).
  change (length (words ++ [w]) <=? 12) with false. cbv iota.
  change (firstn 12 (words ++ [w])) with words.
  exact Hout.
Qed.

(** C4, as amended. The checklist for "/todo buy milk, walk dog" has the
    four bullets of the claim under the header of the source, whose
    apostrophe is the typographic one (U+2019). *)
Theorem generate_ai_reply_todo :
  lowers_ascii str_lower ->
  generate_ai_reply str_lower (Some (py "/todo buy milk, walk dog"))
  = py "Here’s your checklist:" ++ NL
      ++ join NL [py "• buy"; py "• milk,"; py "• walk"; py "• dog"].
Proof.
  intros Hl. rewrite generate_ai_reply_ascii by (assumption || reflexivity).
  vm_compute. reflexivity.
Qed.

End ReplyEngineFacts.



Lemma fifteen_token : is_token (py "fifteen").
Proof.
  split; [discriminate | repeat constructor].
Defined.

Lemma generate_ai_reply_summarize_command_witness :
  lowers_ascii ascii_lower
  /\ generate_ai_reply ascii_lower
       (Some (py "/summarize one two three four five six seven eight nine ten eleven twelve thirteen"))
     = greeting_reply
  /\ generate_ai_reply ascii_lower
       (Some (py "/summarize one two three four five six seven eight nine ten eleven twelve fourteen"))
     = py "Summary: one two three four five six seven eight nine ten eleven twelve …"
  /\ is_token (py "fifteen")
  /\ generate_ai_reply ascii_lower
       (Some (py "/summarize one two three four five six seven eight nine ten eleven twelve "
                ++ py "fifteen"))
     = py "Summary: one two three four five six seven eight nine ten eleven twelve …".
Proof.
  destruct (generate_ai_reply_summarize_command lowers_ascii_ascii_lower)
    as (_ & H13 & H14 & Hrule).
  split; [exact lowers_ascii_ascii_lower|].
  split; [exact H13|]. split; [exact H14|].
  split; [exact fifteen_token|].
  exact (Hrule (py "fifteen") fifteen_token
               eq_refl eq_refl eq_refl eq_refl eq_refl).
Defined.

(** The reply to the example prompt is not the summary the claim names. *)
Lemma summarize_thirteen_is_greeted :
  generate_ai_reply ascii_lower
    (Some (py "/summarize one two three four five six seven eight nine ten eleven twelve thirteen"))
  <> py "Summary: one two three four five six seven eight nine ten eleven twelve …".
Proof.
  vm_compute. discriminate.
Qed.

Lemma generate_ai_reply_todo_witness :
  lowers_ascii ascii_lower
  /\ generate_ai_reply ascii_lower (Some (py "/todo buy milk, walk dog"))
     = py "Here’s your checklist:" ++ NL
         ++ join NL [py "• buy"; py "• milk,"; py "• walk"; py "• dog"].
Proof.
  split.
  - exact lowers_ascii_ascii_lower.
  - exact (generate_ai_reply_todo lowers_ascii_ascii_lower).
Defined.

(** With the ASCII apostrophe of the claim the header is a different
    string. *)
Lemma todo_header_is_not_ascii :
  generate_ai_reply ascii_lower (Some (py "/todo buy milk, walk dog"))
  <> py "Here's your checklist:" ++ NL
       ++ join NL [py "• buy"; py "• milk,"; py "• walk"; py "• dog"].
Proof.
  vm_compute. discriminate.
Qed.

(** ** The message routes *)

Lemma str_eqb_refl (s : pystr) : str_eqb s s = true.
Proof.
  unfold str_eqb. now destruct (list_eq_dec N.eq_dec s s).
Qed.

Section RouteFacts.

Context {bson : BsonObjectId}.
Variable str_lower : pystr -> pystr.
Variable new_id : Store -> ObjectId.

(** The store after one more message document. *)
Definition with_message (st : Store) (doc : MessageDoc) : Store :=
  {| conversation := conversation st; message := message st ++ [doc] |}.

Lemma add_message_unknown (st : Store) (cid : pystr) (payload : MessageCreate) :
  is_valid cid = true ->
  find (fun d => oid_eqb (conv_id d) (ObjectId_of cid)) (conversation st) = None ->
  add_message new_id cid payload (Some st)
  = (Raises conversation_not_found, Some st).
Proof.
  intros Hv Hf.
  unfold add_message, bind, db_is_None, raise_if, find_one_conversation, raise.
  cbn. rewrite Hv. cbn. rewrite Hf. reflexivity.
Qed.

Lemma add_message_known (st : Store) (cid : pystr) (payload : MessageCreate)
    (conv : ConversationDoc) :
  is_valid cid = true ->
  find (fun d => oid_eqb (conv_id d) (ObjectId_of cid)) (conversation st)
  = Some conv ->
  add_message new_id cid payload (Some st)
  = (Returns {| id := oid_str (new_id st);
                conversation_id := cid;
                role := mc_role payload;
                content := mc_content payload |},
     Some (with_message st {| msg_id := new_id st;
                              msg_conversation_id := cid;
                              msg_role := mc_role payload;
                              msg_content := mc_content payload |})).
Proof.
  intros Hv Hf.
  unfold add_message, bind, db_is_None, raise_if, find_one_conversation,
    create_document_message, raise, ret, with_message.
  cbn. rewrite Hv. cbn. rewrite Hf. reflexivity.
Qed.

(** C2. For a valid identifier that names no conversation of the store,
    [send_message] raises "Conversation not found" (404) and leaves the
    store as it was: no message is written. *)
Theorem send_message_unknown_conversation
    (st : Store) (cid : pystr) (req : SendMessageRequest) :
  is_valid cid = true ->
  find (fun d => oid_eqb (conv_id d) (ObjectId_of cid)) (conversation st) = None ->
  send_message str_lower new_id cid req (Some st)
  = (Raises conversation_not_found, Some st).
Proof.
  intros Hv Hf. unfold send_message, bind at 1 2 3, db_is_None, raise_if, ret.
  cbn. rewrite Hv. cbn. unfold bind.
  rewrite add_message_unknown by assumption. reflexivity.
Qed.

(** C1. For a valid identifier of a conversation of the store,
    [send_message] appends two message documents, first the user's with the
    request's content and then the assistant's with the reply
    [generate_ai_reply] gives to that content, and returns the assistant's
    record; the message list of the conversation then ends with these two,
    in this order. *)
Theorem send_message_exchange
    (st : Store) (cid content : pystr) (conv : ConversationDoc) :
  is_valid cid = true ->
  find (fun d => oid_eqb (conv_id d) (ObjectId_of cid)) (conversation st)
  = Some conv ->
  let reply := generate_ai_reply str_lower (Some content) in
  let user_doc := {| msg_id := new_id st; msg_conversation_id := cid;
                     msg_role := user; msg_content := content |} in
  let st1 := with_message st user_doc in
  let reply_doc := {| msg_id := new_id st1; msg_conversation_id := cid;
                      msg_role := assistant; msg_content := reply |} in
  let st2 := with_message st1 reply_doc in
  let created := {| id := oid_str (new_id st1); conversation_id := cid;
                    role := assistant; content := reply |} in
  send_message str_lower new_id cid {| req_content := content |} (Some st)
  = (Returns created, Some st2)
  /\ message st2 = message st ++ [user_doc; reply_doc]
  /\ conversation st2 = conversation st
  /\ forall before,
       get_messages cid (Some st) = (Returns before, Some st) ->
       get_messages cid (Some st2)
       = (Returns (before ++ [ {| id := oid_str (new_id st);
                                  conversation_id := cid;
                                  role := user; content := content |};
                               created ]),
          Some st2).
Proof.
  intros Hv Hf reply user_doc st1 reply_doc st2 created.
  split; [|split; [|split]].
  - unfold send_message, bind at 1 2 3, db_is_None, raise_if, ret.
    cbn. rewrite Hv. cbn. unfold bind.
    rewrite (@add_message_known st cid _ conv Hv Hf). cbn [mc_role mc_content].
    fold user_doc. fold st1.
    rewrite (@add_message_known st1 cid _ conv Hv Hf). reflexivity.
  - cbn. now rewrite <- app_assoc.
  - reflexivity.
  - intros before.
    unfold get_messages, bind, db_is_None, raise_if, ret, raise.
    cbn. rewrite Hv. cbn. intros Hb. injection Hb as <-.
    rewrite <- app_assoc, filter_app, map_app. cbn.
    rewrite str_eqb_refl. reflexivity.
Qed.

End RouteFacts.

(** A store with one conversation, and the same identifier written in
    upper case. *)
Definition demo_conversation : @ConversationDoc hex_ObjectId :=
  {| conv_id := py "00000000000000000000000a" : @ObjectId hex_ObjectId;
     title := py "First chat";
     created_by := None |}.

Definition demo_store : @Store hex_ObjectId :=
  {| conversation := [demo_conversation]; message := [] |}.

Definition demo_id : pystr := py "00000000000000000000000A".

Definition other_id : pystr := py "00000000000000000000000b".

Lemma send_message_unknown_conversation_witness :
  @is_valid hex_ObjectId other_id = true
  /\ send_message ascii_lower counting_id other_id
       {| req_content := py "hi" |} (Some demo_store)
     = (Raises conversation_not_found, Some demo_store).
Proof.
  split.
  - reflexivity.
  - apply (@send_message_unknown_conversation hex_ObjectId); reflexivity.
Defined.

Lemma send_message_exchange_witness :
  @is_valid hex_ObjectId demo_id = true
  /\ fst (send_message ascii_lower counting_id demo_id
            {| req_content := py "hi" |} (Some demo_store))
     = Returns {| id := py "000000000000000000000003";
                  conversation_id := demo_id;
                  role := assistant;
                  content := greeting_reply |}.
Proof.
  split.
  - reflexivity.
  - rewrite (proj1 (@send_message_exchange hex_ObjectId ascii_lower counting_id
                      demo_store demo_id (py "hi") demo_conversation
                      eq_refl eq_refl)).
    reflexivity.
Defined.

(** * Further properties of the text utilities and the engine *)

(** ** [strip] *)

Lemma lstrip_by_idem (drop : N -> bool) (s : pystr) :
  lstrip_by drop (lstrip_by drop s) = lstrip_by drop s.
Proof.
  induction s as [|c s IH]; simpl; [reflexivity|].
  destruct (drop c) eqn:E; [assumption|]. simpl. now rewrite E.
Qed.

Lemma lstrip_by_head (drop : N -> bool) (s : pystr) :
  lstrip_by drop s = []
  \/ exists c t, lstrip_by drop s = c :: t /\ drop c = false.
Proof.
  induction s as [|c s IH]; simpl; [now left|].
  destruct (drop c) eqn:E; [assumption|]. right. now exists c, s.
Qed.

Lemma lstrip_by_keeps_last (drop : N -> bool) (l : pystr) (c : N) :
  drop c = false -> exists r, lstrip_by drop (l ++ [c]) = r ++ [c].
Proof.
  intros Hc. induction l as [|x l [r IH]]; simpl.
  - rewrite Hc. now exists [].
  - destruct (drop x); [now exists r|]. now exists (x :: l).
Qed.

Lemma strip_by_lstrip (drop : N -> bool) (s : pystr) :
  lstrip_by drop (strip_by drop s) = strip_by drop s.
Proof.
  unfold strip_by, rstrip_by.
  destruct (lstrip_by_head drop s) as [E | (c & t & E & Hc)]; rewrite E.
  - reflexivity.
  - change (rev (c :: t)) with (rev t ++ [c]).
    destruct (lstrip_by_keeps_last drop (rev t) c Hc) as [r Hr].
    rewrite Hr, rev_app_distr. simpl. now rewrite Hc.
Qed.

Lemma strip_by_idem (drop : N -> bool) (s : pystr) :
  strip_by drop (strip_by drop s) = strip_by drop s.
Proof.
  unfold strip_by at 1. rewrite strip_by_lstrip.
  unfold strip_by, rstrip_by. now rewrite rev_involutive, lstrip_by_idem.
Qed.

(** Trimming is idempotent, for whitespace and for a set of characters:
    [s.strip().strip() == s.strip()]. *)
Theorem strip_idempotent (s chars : pystr) :
  strip (strip s) = strip s
  /\ strip_chars chars (strip_chars chars s) = strip_chars chars s.
Proof.
  split; apply strip_by_idem.
Qed.

Section EngineExtras.

Variable str_lower : pystr -> pystr.

(** X1. Whitespace around a prompt never changes the reply: the engine
    answers a prompt as it answers its trimmed form. *)
Theorem generate_ai_reply_ignores_margins (prompt : pystr) :
  generate_ai_reply str_lower (Some (strip prompt))
  = generate_ai_reply str_lower (Some prompt).
Proof.
  unfold generate_ai_reply. rewrite !or_empty_Some.
  unfold strip. now rewrite strip_by_idem.
Qed.

Lemma truthy_app (a b : pystr) : truthy a = true -> truthy (a ++ b) = true.
Proof. now destruct a. Qed.

Lemma truthy_nonempty (s : pystr) : truthy s = true -> s <> [] .
Proof. now destruct s. Qed.

(** X2. The reply is never the empty string, whatever the prompt ([None]
    included). *)
Theorem generate_ai_reply_nonempty (prompt : option pystr) :
  generate_ai_reply str_lower prompt <> [].
Proof.
  apply truthy_nonempty. unfold generate_ai_reply.
  repeat match goal with
         | |- truthy (if ?b then _ else _) = true => destruct b
         end;
    try reflexivity; now apply truthy_app.
Qed.

(** X3. The greeting rule wins over every command: a prompt that is not
    blank and whose lower-cased form holds "hello", "hi" or "hey" anywhere
    gets the greeting, also when it starts with /help, /summarize or
    /todo. *)
Theorem generate_ai_reply_greeting_first (prompt : pystr) :
  let lower := str_lower (strip prompt) in
  strip prompt <> [] ->
  contains (py "hello") lower || contains (py "hi") lower
    || contains (py "hey") lower = true ->
  generate_ai_reply str_lower (Some prompt) = greeting_reply.
Proof.
  intros lower Hne Hg. unfold generate_ai_reply.
  rewrite or_empty_Some. fold lower.
  destruct (strip prompt) as [|c p]; [contradiction|].
  cbn [truthy negb existsb]. rewrite orb_false_r, orb_assoc, Hg.
  reflexivity.
Qed.

Lemma split_on_absent (sep : N) (s : pystr) :
  forallb (fun c => negb (c =? sep)%N) s = true -> split_on sep s = [s].
Proof.
  induction s as [|c s IH]; simpl; [reflexivity|].
  destruct (c =? sep)%N; simpl; [discriminate|].
  intros H. now rewrite IH.
Qed.

(** X4. A /todo prompt with no space in it once trimmed ("/todo" alone,
    but also "/todolist") has no items, and is answered with the request
    for items. *)
Theorem generate_ai_reply_todo_no_items (prompt : pystr) :
  let lower := str_lower (strip prompt) in
  strip prompt <> [] ->
  existsb (fun g => contains g lower) [py "hello"; py "hi"; py "hey"] = false ->
  startswith lower (py "/help") || contains (py "help") lower = false ->
  startswith lower (py "/summarize") = false ->
  startswith lower (py "/todo") = true ->
  forallb (fun c => negb (c =? SPACE)%N) (strip prompt) = true ->
  generate_ai_reply str_lower (Some prompt) = py "Provide items after /todo".
Proof.
  intros lower Hne Hg Hh Hs Ht Hsp. unfold generate_ai_reply.
  rewrite or_empty_Some. fold lower.
  rewrite Hg, Hh, Hs, Ht, (split_on_absent _ _ Hsp).
  destruct (strip prompt); [contradiction | reflexivity].
Qed.

End EngineExtras.

Lemma generate_ai_reply_todo_no_items_witness :
  strip (py " /TODOlist ") <> []
  /\ generate_ai_reply ascii_lower (Some (py " /TODOlist "))
     = py "Provide items after /todo".
Proof.
  split.
  - vm_compute. discriminate.
  - apply generate_ai_reply_todo_no_items;
      solve [reflexivity | vm_compute; discriminate].
Defined.

Lemma generate_ai_reply_greeting_first_witness :
  strip (py " /todo say HI to Bob") <> []
  /\ generate_ai_reply ascii_lower (Some (py " /todo say HI to Bob"))
     = greeting_reply.
Proof.
  split.
  - vm_compute. discriminate.
  - apply generate_ai_reply_greeting_first;
      [vm_compute; discriminate | reflexivity].
Defined.

(** ** [summarize] *)

(** X5. A summary has at most thirteen tokens: as many as the input when
    that is at most twelve, and otherwise the first twelve words of the
    input followed by the ellipsis. *)
Theorem summarize_tokens (x : pystr) :
  length (split (summarize x)) = Nat.min (length (split x)) 13
  /\ firstn 12 (split (summarize x)) = firstn 12 (split x)
  /\ (12 < length (split x) ->
      split (summarize x) = firstn 12 (split x) ++ [py "…"]).
Proof.
  destruct (Nat.leb_spec (length (split x)) 12) as [Hle | Hgt].
  - rewrite summarize_short by assumption.
    split; [lia | split; [reflexivity | lia]].
  - assert (Hx : split (summarize x) = firstn 12 (split x) ++ [py "…"]).
    { unfold summarize. apply Nat.leb_gt in Hgt as E. rewrite E.
      now apply split_summary. }
    assert (Hlen : length (firstn 12 (split x)) = 12)
      by (rewrite length_firstn; lia).
    rewrite Hx. split; [|split; [|reflexivity]].
    + rewrite length_app, Hlen. simpl. lia.
    + rewrite firstn_app, Hlen, Nat.sub_diag, firstn_O, app_nil_r.
      now rewrite firstn_all2 by lia.
Qed.

(** ** [sorted(set(...))] does not depend on the order of the set *)

Lemma str_leb_antisym (a b : pystr) :
  str_leb a b = true -> str_leb b a = true -> a = b.
Proof.
  revert b. induction a as [|x a IH]; intros [|y b]; simpl; try easy.
  destruct (N.ltb_spec x y), (N.ltb_spec y x), (N.eqb_spec x y),
    (N.eqb_spec y x); simpl; try easy; try lia.
  intros H1 H2. subst. f_equal. now apply IH.
Qed.

(** Two sorted lists with the same elements are the same list. *)
Lemma sorted_lists_equal (l1 l2 : list pystr) :
  StronglySorted (fun a b => is_true (str_leb a b)) l1 ->
  StronglySorted (fun a b => is_true (str_leb a b)) l2 ->
  Permutation l1 l2 -> l1 = l2.
Proof.
  intros H1. revert l2.
  induction H1 as [|a l1 Hs1 IH Ha]; intros l2 H2 HP.
  - apply Permutation_nil in HP. now subst.
  - destruct H2 as [|b l2 Hs2 Hb].
    + apply Permutation_sym, Permutation_nil in HP. discriminate.
    + assert (a = b) as <-.
      { assert (Hain : In a (b :: l2))
          by (eapply Permutation_in; [exact HP | now left]).
        assert (Hbin : In b (a :: l1))
          by (eapply Permutation_in;
              [apply Permutation_sym; exact HP | now left]).
        rewrite Forall_forall in Ha, Hb.
        destruct Hain as [-> | Hain]; [reflexivity|].
        destruct Hbin as [-> | Hbin]; [reflexivity|].
        apply str_leb_antisym; [now apply Ha | now apply Hb]. }
      f_equal. apply IH; [assumption|].
      eapply Permutation_cons_inv; eassumption.
Qed.

(** [sorted] gives the same list for any two arrangements of the same
    elements: whatever order Python iterates the set in, [reflect] sorts it
    to one result. *)
Theorem sorted_order_independent (l1 l2 : list pystr) :
  Permutation l1 l2 -> sorted l1 = sorted l2.
Proof.
  intros HP. unfold sorted. apply sorted_lists_equal.
  - apply StrSort.StronglySorted_sort, str_leb_trans.
  - apply StrSort.StronglySorted_sort, str_leb_trans.
  - eapply Permutation_trans;
      [apply Permutation_sym, StrSort.Permuted_sort|].
    eapply Permutation_trans; [exact HP | apply StrSort.Permuted_sort].
Qed.

Lemma sorted_order_independent_witness :
  Permutation [py "walrus"; py "badger"; py "ferret"]
              [py "ferret"; py "walrus"; py "badger"]
  /\ sorted [py "walrus"; py "badger"; py "ferret"]
     = sorted [py "ferret"; py "walrus"; py "badger"].
Proof.
  assert (HP : Permutation [py "walrus"; py "badger"; py "ferret"]
                           [py "ferret"; py "walrus"; py "badger"]).
  { apply Permutation_sym.
    apply (Permutation_cons_app [py "walrus"; py "badger"] [] (py "ferret")).
    rewrite app_nil_r. apply Permutation_refl. }
  split; [exact HP | exact (sorted_order_independent HP)].
Defined.

(** The long words of a text, as [reflect] filters them. *)
Definition long_words (text : pystr) : list pystr :=
  filter (fun w => 5 <? length w)
         (map (strip_chars (py ".,!?")) (split text)).

(** X6. [reflect] depends only on which long words a text holds, not on
    their order or on how often they occur. *)
Theorem reflect_same_words (t1 t2 : pystr) :
  (forall w, In w (long_words t1) <-> In w (long_words t2)) ->
  reflect t1 = reflect t2.
Proof.
  intros H. unfold reflect.
  replace (reflect_keys t2) with (reflect_keys t1); [reflexivity|].
  unfold reflect_keys. fold (long_words t1). fold (long_words t2).
  f_equal. apply sorted_order_independent.
  unfold set_of. apply NoDup_Permutation; try apply NoDup_nodup.
  intros w. rewrite !nodup_In. apply H.
Qed.

Lemma reflect_same_words_witness :
  (forall w, In w (long_words (py "wonderful elephants"))
             <-> In w (long_words (py "elephants, and elephants? wonderful!")))
  /\ reflect (py "wonderful elephants")
     = reflect (py "elephants, and elephants? wonderful!").
Proof.
  assert (H : forall w,
             In w (long_words (py "wonderful elephants"))
             <-> In w (long_words (py "elephants, and elephants? wonderful!"))).
  { intros w. vm_compute. tauto. }
  split; [exact H | exact (reflect_same_words _ _ H)].
Defined.

(** * Further properties of the routes *)

Lemma find_app_some {A} (f : A -> bool) (l l' : list A) :
  find f l <> None -> find f (l ++ l') <> None.
Proof.
  induction l as [|a l IH]; simpl; [contradiction|].
  now destruct (f a).
Qed.

Lemma find_last_some {A} (f : A -> bool) (l : list A) (a : A) :
  f a = true -> find f (l ++ [a]) <> None.
Proof.
  intros Ha. induction l as [|x l IH]; simpl.
  - now rewrite Ha.
  - now destruct (f x).
Qed.

Section RouteExtras.

Context {bson : BsonObjectId}.
Variable str_lower : pystr -> pystr.
Variable new_id : Store -> ObjectId.
Variable get_documents_conversation : Store -> nat -> list ConversationDoc.

(** [find_one({"_id": ObjectId(cid)})] on the conversations of a store. *)
Definition lookup (st : Store) (cid : pystr) : option ConversationDoc :=
  find (fun d => oid_eqb (conv_id d) (ObjectId_of cid)) (conversation st).

(** The document and the record of one inserted message. *)
Definition message_doc (st : Store) (cid : pystr) (payload : MessageCreate)
  : MessageDoc :=
  {| msg_id := new_id st; msg_conversation_id := cid;
     msg_role := mc_role payload; msg_content := mc_content payload |}.

Definition message_out (d : MessageDoc) : MessageOut :=
  {| id := oid_str (msg_id d); conversation_id := msg_conversation_id d;
     role := msg_role d; content := msg_content d |}.

(** The three ways [add_message] ends when a database is present. *)
Lemma add_message_cases (st : Store) (cid : pystr) (payload : MessageCreate) :
  add_message new_id cid payload (Some st)
  = if negb (is_valid cid) then (Raises invalid_conversation_id, Some st)
    else match lookup st cid with
         | None => (Raises conversation_not_found, Some st)
         | Some _ =>
             (Returns (message_out (message_doc st cid payload)),
              Some (with_message st (message_doc st cid payload)))
         end.
Proof.
  unfold add_message, bind, db_is_None, raise_if, find_one_conversation,
    create_document_message, raise, ret, with_message, lookup.
  cbn. destruct (is_valid cid); cbn; [|reflexivity].
  now destruct (find _ (conversation st)).
Qed.

Lemma send_message_cases (st : Store) (cid : pystr) (req : SendMessageRequest) :
  send_message str_lower new_id cid req (Some st)
  = if negb (is_valid cid) then (Raises invalid_conversation_id, Some st)
    else match lookup st cid with
         | None => (Raises conversation_not_found, Some st)
         | Some _ =>
             let u := message_doc st cid
                        {| mc_role := user; mc_content := req_content req |} in
             let a := message_doc (with_message st u) cid
                        {| mc_role := assistant;
                           mc_content := generate_ai_reply str_lower
                                           (Some (req_content req)) |} in
             (Returns (message_out a),
              Some (with_message (with_message st u) a))
         end.
Proof.
  unfold send_message, bind at 1 2 3, db_is_None, raise_if, ret.
  cbn -[add_message].
  destruct (is_valid cid) eqn:Hv; cbn -[add_message]; [|reflexivity].
  unfold bind. rewrite add_message_cases, Hv. cbn -[add_message].
  destruct (lookup st cid) eqn:Hl; [|reflexivity].
  rewrite add_message_cases, Hv. cbn -[add_message].
  unfold lookup in *. cbn [with_message conversation]. now rewrite Hl.
Qed.

Lemma get_messages_cases (st : Store) (cid : pystr) :
  get_messages cid (Some st)
  = if negb (is_valid cid) then (Raises invalid_conversation_id, Some st)
    else (Returns (map message_out
                     (filter (fun d => str_eqb (msg_conversation_id d) cid)
                             (message st))),
          Some st).
Proof.
  unfold get_messages, bind, db_is_None, raise_if, raise, ret.
  cbn. now destruct (is_valid cid).
Qed.

(** X7. Without a database every route raises "Database not available"
    (500) before it looks at its arguments, an invalid identifier
    included. *)
Theorem routes_without_database
    (cid : pystr) (payload : MessageCreate) (req : SendMessageRequest)
    (conv : ConversationCreate) :
  add_message new_id cid payload None = (Raises database_not_available, None)
  /\ send_message str_lower new_id cid req None
     = (Raises database_not_available, None)
  /\ get_messages cid None = (Raises database_not_available, None)
  /\ create_conversation new_id conv None
     = (Raises database_not_available, None)
  /\ list_conversations get_documents_conversation None
     = (Raises database_not_available, None).
Proof.
  repeat split.
Qed.

(** X8. An identifier that is not a valid ObjectId makes the three message
    routes raise "Invalid conversation id" (400) and leaves the store as it
    was; no lookup and no insert happens. *)
Theorem routes_invalid_id
    (st : Store) (cid : pystr) (payload : MessageCreate)
    (req : SendMessageRequest) :
  is_valid cid = false ->
  add_message new_id cid payload (Some st)
  = (Raises invalid_conversation_id, Some st)
  /\ send_message str_lower new_id cid req (Some st)
     = (Raises invalid_conversation_id, Some st)
  /\ get_messages cid (Some st) = (Raises invalid_conversation_id, Some st).
Proof.
  intros Hv.
  rewrite add_message_cases, send_message_cases, get_messages_cases, Hv.
  repeat split.
Qed.

(** X9. [get_messages] only reads: for a valid identifier it returns,
    whether or not such a conversation exists, the store is unchanged, and
    every record it returns carries exactly the identifier asked for. *)
Theorem get_messages_reads (st : Store) (cid : pystr) :
  is_valid cid = true ->
  exists out,
    get_messages cid (Some st) = (Returns out, Some st)
    /\ Forall (fun m => conversation_id m = cid) out
    /\ length out <= length (message st).
Proof.
  intros Hv. rewrite get_messages_cases, Hv. cbn.
  eexists. split; [reflexivity|]. split.
  - apply Forall_forall. intros m Hm.
    apply in_map_iff in Hm as (d & <- & Hd).
    apply filter_In in Hd as [_ Hd]. cbn.
    unfold str_eqb in Hd. now destruct (list_eq_dec N.eq_dec _ _).
  - rewrite length_map. apply filter_length_le.
Qed.

(** X10. A message added to a conversation shows up last in that
    conversation's list, with the role and content given. *)
Theorem add_message_then_get_messages
    (st : Store) (cid : pystr) (payload : MessageCreate)
    (conv : ConversationDoc) (before : list MessageOut) :
  is_valid cid = true ->
  lookup st cid = Some conv ->
  get_messages cid (Some st) = (Returns before, Some st) ->
  exists created st',
    add_message new_id cid payload (Some st) = (Returns created, Some st')
    /\ role created = mc_role payload
    /\ content created = mc_content payload
    /\ conversation_id created = cid
    /\ get_messages cid (Some st') = (Returns (before ++ [created]), Some st').
Proof.
  intros Hv Hl Hb.
  rewrite get_messages_cases, Hv in Hb. cbn in Hb. injection Hb as <-.
  exists (message_out (message_doc st cid payload)),
         (with_message st (message_doc st cid payload)).
  rewrite add_message_cases, Hv, Hl. cbn [negb].
  repeat split.
  rewrite get_messages_cases, Hv. cbn.
  rewrite filter_app, map_app. cbn. now rewrite str_eqb_refl.
Qed.

(** X11. Writing to one conversation leaves the list of every other
    identifier as it was, for [add_message] and for [send_message],
    whether the call returns or raises. *)
Theorem other_conversations_untouched
    (st : Store) (cid other : pystr) (payload : MessageCreate)
    (req : SendMessageRequest) :
  other <> cid ->
  (forall r st', add_message new_id cid payload (Some st) = (r, Some st') ->
                 fst (get_messages other (Some st'))
                 = fst (get_messages other (Some st)))
  /\ (forall r st', send_message str_lower new_id cid req (Some st)
                    = (r, Some st') ->
                    fst (get_messages other (Some st'))
                    = fst (get_messages other (Some st))).
Proof.
  intros Hne.
  assert (Hc : str_eqb cid other = false).
  { unfold str_eqb. destruct (list_eq_dec N.eq_dec cid other); congruence. }
  split; intros r st'.
  - rewrite add_message_cases.
    destruct (negb (is_valid cid)); [congruence|].
    destruct (lookup st cid); [|congruence].
    intros H. injection H as _ <-.
    rewrite !get_messages_cases. destruct (negb (is_valid other)); cbn;
      [reflexivity|].
    now rewrite filter_app; cbn; rewrite Hc, app_nil_r.
  - rewrite send_message_cases.
    destruct (negb (is_valid cid)); [congruence|].
    destruct (lookup st cid); [|congruence].
    cbv zeta. intros H. injection H as _ <-.
    rewrite !get_messages_cases. destruct (negb (is_valid other)); cbn;
      [reflexivity|].
    now rewrite !filter_app; cbn; rewrite Hc, !app_nil_r.
Qed.

End RouteExtras.

(** ** The stable descending sort of [list_conversations] *)

Lemma insert_desc_perm (x : ConversationOut) (l : list ConversationOut) :
  Permutation (x :: l) (insert_desc x l).
Proof.
  induction l as [|y l IH]; simpl; [apply Permutation_refl|].
  destruct (str_leb (co_id y) (co_id x)); [apply Permutation_refl|].
  eapply Permutation_trans; [apply perm_swap|]. now apply perm_skip.
Qed.

Lemma insert_desc_sorted (x : ConversationOut) (l : list ConversationOut) :
  StronglySorted (fun a b => str_leb (co_id b) (co_id a) = true) l ->
  StronglySorted (fun a b => str_leb (co_id b) (co_id a) = true)
                 (insert_desc x l).
Proof.
  induction 1 as [|y l Hs IH Hy]; simpl.
  - constructor; constructor.
  - destruct (str_leb (co_id y) (co_id x)) eqn:E.
    + constructor; [now constructor|].
      constructor; [assumption|].
      eapply Forall_impl; [|exact Hy]. cbn. intros z Hz.
      exact (@str_leb_trans _ _ _ Hz E).
    + constructor; [assumption|].
      assert (Hxy : str_leb (co_id x) (co_id y) = true)
        by (destruct (StrOrder.leb_total (co_id x) (co_id y)) as [H | H];
            [exact H | unfold StrOrder.leb in H; congruence]).
      eapply Permutation_Forall; [apply insert_desc_perm|].
      now constructor.
Qed.

Lemma sort_by_id_desc_perm (l : list ConversationOut) :
  Permutation l (sort_by_id_desc l).
Proof.
  induction l as [|x l IH]; simpl; [constructor|].
  eapply Permutation_trans; [|apply insert_desc_perm]. now apply perm_skip.
Qed.

Lemma sort_by_id_desc_sorted (l : list ConversationOut) :
  StronglySorted (fun a b => str_leb (co_id b) (co_id a) = true)
                 (sort_by_id_desc l).
Proof.
  induction l as [|x l IH]; simpl; [constructor|].
  now apply insert_desc_sorted.
Qed.

Section StoreExtras.

Context {bson : BsonObjectId}.
Variable str_lower : pystr -> pystr.
Variable new_id : Store -> ObjectId.
Variable get_documents_conversation : Store -> nat -> list ConversationDoc.

Definition conversation_out (d : ConversationDoc) : ConversationOut :=
  {| co_id := oid_str (conv_id d); co_title := title d;
     co_created_by := created_by d |}.

(** X12. [list_conversations] returns the documents the query gives, each
    as its record with the identifier as a string, ordered by that string
    from the largest down; the store is unchanged. *)
Theorem list_conversations_newest_first (st : Store) :
  exists out,
    list_conversations get_documents_conversation (Some st)
    = (Returns out, Some st)
    /\ StronglySorted (fun a b => str_leb (co_id b) (co_id a) = true) out
    /\ Permutation
         (map conversation_out (get_documents_conversation st 100)) out.
Proof.
  eexists. split; [reflexivity|]. split.
  - apply sort_by_id_desc_sorted.
  - apply sort_by_id_desc_perm.
Qed.

(** Every message of the store names, by a valid identifier, a conversation
    of the store. *)
Definition referential (st : Store) : Prop :=
  Forall (fun m => is_valid (msg_conversation_id m) = true
                   /\ lookup st (msg_conversation_id m) <> None)
         (message st).

Lemma referential_with_message (st : Store) (doc : MessageDoc) :
  referential st ->
  is_valid (msg_conversation_id doc) = true ->
  lookup st (msg_conversation_id doc) <> None ->
  referential (with_message st doc).
Proof.
  intros Hst Hv Hl. unfold referential. cbn.
  apply Forall_app. split; [exact Hst|]. now constructor.
Qed.

(** X13. The store keeps its references whole: if every message names an
    existing conversation, this is still so after [add_message],
    [send_message] or [create_conversation], however the call ends; the
    message routes never touch the conversations, and
    [create_conversation] never touches the messages. *)
Theorem routes_keep_references (st : Store) :
  referential st ->
  (forall cid payload r db',
      add_message new_id cid payload (Some st) = (r, db') ->
      exists st', db' = Some st' /\ referential st'
                  /\ conversation st' = conversation st)
  /\ (forall cid req r db',
         send_message str_lower new_id cid req (Some st) = (r, db') ->
         exists st', db' = Some st' /\ referential st'
                     /\ conversation st' = conversation st)
  /\ (forall conv r db',
         create_conversation new_id conv (Some st) = (r, db') ->
         exists st', db' = Some st' /\ referential st'
                     /\ message st' = message st).
Proof.
  intros Hst. split; [|split].
  - intros cid payload r db'. rewrite add_message_cases.
    destruct (is_valid cid) eqn:Hv; cbn [negb];
      [|intros H; injection H as _ <-; now exists st].
    destruct (lookup st cid) eqn:Hl;
      [|intros H; injection H as _ <-; now exists st].
    intros H. injection H as _ <-. eexists. split; [reflexivity|].
    split; [|reflexivity].
    apply referential_with_message; cbn; congruence.
  - intros cid req r db'. rewrite send_message_cases.
    destruct (is_valid cid) eqn:Hv; cbn [negb];
      [|intros H; injection H as _ <-; now exists st].
    destruct (lookup st cid) eqn:Hl;
      [|intros H; injection H as _ <-; now exists st].
    cbv zeta. intros H. injection H as _ <-.
    eexists. split; [reflexivity|]. split; [|reflexivity].
    assert (Hl' : lookup st cid <> None) by congruence.
    apply referential_with_message; [|exact Hv | exact Hl'].
    apply referential_with_message; [exact Hst | exact Hv | exact Hl'].
  - intros conv r db' H. cbn in H. injection H as _ <-.
    eexists. split; [reflexivity|]. split; [|reflexivity].
    unfold referential in *. cbn.
    eapply Forall_impl; [|exact Hst]. cbn. intros m [Hv Hl].
    split; [assumption|]. unfold lookup in *. cbn.
    now apply find_app_some.
Qed.

(** X14. A conversation just created can be written to: when the store's
    new identifier survives the round trip through its string form,
    [create_conversation] returns the record with the title given, adds one
    conversation and no message, and [add_message] under the returned
    identifier succeeds. *)
Theorem create_conversation_then_add_message
    (st : Store) (conv : ConversationCreate) (payload : MessageCreate) :
  is_valid (oid_str (new_id st)) = true ->
  oid_eqb (new_id st) (ObjectId_of (oid_str (new_id st))) = true ->
  exists created st1,
    create_conversation new_id conv (Some st) = (Returns created, Some st1)
    /\ co_title created = cc_title conv
    /\ co_created_by created = cc_created_by conv
    /\ length (conversation st1) = S (length (conversation st))
    /\ message st1 = message st
    /\ exists m st2,
         add_message new_id (co_id created) payload (Some st1)
         = (Returns m, Some st2)
         /\ message st2 = message st ++ [message_doc new_id st1 (co_id created) payload].
Proof.
  intros Hv Hr. eexists. eexists. split; [reflexivity|].
  split; [reflexivity|]. split; [reflexivity|].
  split; [cbn; rewrite length_app; cbn; lia|].
  split; [reflexivity|].
  rewrite add_message_cases. cbn [co_id]. rewrite Hv. cbn [negb].
  destruct (lookup _ (oid_str (new_id st))) eqn:Hl.
  - eexists. eexists. split; reflexivity.
  - exfalso. revert Hl. unfold lookup. cbn [conversation].
    apply find_last_some. cbn. exact Hr.
Qed.

Section SerializeFacts.

Variable A : Type.
Variable of_str : pystr -> A.

(** X15. [serialize_doc] keeps the keys and their order, turns every
    ObjectId into its string and leaves every other value as it is; its
    result holds no ObjectId, and serializing it again changes nothing. *)
Theorem serialize_doc_strings (doc : dict A) :
  map fst (serialize_doc of_str doc) = map fst doc
  /\ (forall k o, In (k, VObjectId o) doc ->
                  In (k, VOther (of_str (oid_str o))) (serialize_doc of_str doc))
  /\ (forall k a, In (k, VOther a) doc ->
                  In (k, VOther a) (serialize_doc of_str doc))
  /\ (forall k o, ~ In (k, VObjectId o) (serialize_doc of_str doc))
  /\ serialize_doc of_str (serialize_doc of_str doc) = serialize_doc of_str doc.
Proof.
  unfold serialize_doc. repeat split.
  - rewrite map_map. reflexivity.
  - intros k o H. apply in_map_iff. now exists (k, VObjectId o).
  - intros k a H. apply in_map_iff. now exists (k, VOther a).
  - intros k o H. apply in_map_iff in H as ([k' v] & E & _).
    cbn in E. now destruct v.
  - rewrite map_map. apply map_ext. intros [k v]. cbn. now destruct v.
Qed.

End SerializeFacts.

End StoreExtras.

(** ** The routes on the demo store *)

Definition demo_payload : MessageCreate :=
  {| mc_role := user; mc_content := py "first message" |}.

Definition demo_request : SendMessageRequest :=
  {| req_content := py "hello" |}.

Definition short_id : pystr := py "abc".

(** The demo store after one message in its conversation. *)
Definition demo_store_1 : @Store hex_ObjectId :=
  with_message demo_store
    (message_doc counting_id demo_store demo_id demo_payload).

Lemma routes_invalid_id_witness :
  @is_valid hex_ObjectId short_id = false
  /\ send_message ascii_lower counting_id short_id demo_request
       (Some demo_store_1)
     = (Raises invalid_conversation_id, Some demo_store_1).
Proof.
  split.
  - reflexivity.
  - exact (proj1 (proj2 (@routes_invalid_id hex_ObjectId ascii_lower
                           counting_id demo_store_1 short_id demo_payload
                           demo_request eq_refl))).
Defined.

Lemma get_messages_reads_witness :
  @is_valid hex_ObjectId other_id = true
  /\ exists out,
       get_messages other_id (Some demo_store_1)
       = (Returns out, Some demo_store_1).
Proof.
  split.
  - reflexivity.
  - destruct (@get_messages_reads hex_ObjectId demo_store_1 other_id eq_refl)
      as (out & H & _).
    now exists out.
Defined.

Lemma add_message_then_get_messages_witness :
  @is_valid hex_ObjectId demo_id = true
  /\ lookup demo_store demo_id = Some demo_conversation
  /\ get_messages demo_id (Some demo_store) = (Returns [], Some demo_store)
  /\ exists created st',
       add_message counting_id demo_id demo_payload (Some demo_store)
       = (Returns created, Some st')
       /\ get_messages demo_id (Some st') = (Returns [created], Some st').
Proof.
  split; [reflexivity|]. split; [reflexivity|]. split; [reflexivity|].
  destruct (@add_message_then_get_messages hex_ObjectId counting_id demo_store
              demo_id demo_payload demo_conversation [] eq_refl eq_refl eq_refl)
    as (created & st' & Ha & _ & _ & _ & Hg).
  now exists created, st'.
Defined.

Lemma other_id_differs : other_id <> demo_id.
Proof.
  intros H. vm_compute in H. discriminate H.
Defined.

Lemma other_conversations_untouched_witness :
  other_id <> demo_id
  /\ forall r st',
       send_message ascii_lower counting_id demo_id demo_request
         (Some demo_store_1) = (r, Some st') ->
       fst (get_messages other_id (Some st'))
       = fst (get_messages other_id (Some demo_store_1)).
Proof.
  split.
  - exact other_id_differs.
  - exact (proj2 (@other_conversations_untouched hex_ObjectId ascii_lower
                    counting_id demo_store_1 demo_id other_id demo_payload
                    demo_request other_id_differs)).
Defined.

Lemma demo_store_1_referential : referential demo_store_1.
Proof.
  constructor; [|constructor]. split; [reflexivity|].
  intros H. vm_compute in H. discriminate H.
Defined.

Lemma routes_keep_references_witness :
  referential demo_store_1
  /\ exists st',
       snd (send_message ascii_lower counting_id demo_id demo_request
              (Some demo_store_1)) = Some st'
       /\ referential st'
       /\ length (message st') = 3.
Proof.
  split; [exact demo_store_1_referential|].
  destruct (proj1 (proj2 (@routes_keep_references hex_ObjectId ascii_lower
                            counting_id demo_store_1
                            demo_store_1_referential))
              demo_id demo_request _ _ (surjective_pairing _))
    as (st' & E & R & _).
  exists st'. split; [exact E|]. split; [exact R|].
  vm_compute in E. injection E as <-. reflexivity.
Defined.

Lemma create_conversation_then_add_message_witness :
  @is_valid hex_ObjectId (oid_str (counting_id demo_store_1)) = true
  /\ @oid_eqb hex_ObjectId (counting_id demo_store_1)
       (ObjectId_of (oid_str (counting_id demo_store_1))) = true
  /\ exists created st1,
       create_conversation counting_id
         {| cc_title := py "Second chat"; cc_created_by := Some (py "ana") |}
         (Some demo_store_1) = (Returns created, Some st1)
       /\ exists m st2,
            add_message counting_id (co_id created) demo_payload (Some st1)
            = (Returns m, Some st2).
Proof.
  split; [reflexivity|]. split; [reflexivity|].
  destruct (@create_conversation_then_add_message hex_ObjectId counting_id
              demo_store_1
              {| cc_title := py "Second chat"; cc_created_by := Some (py "ana") |}
              demo_payload eq_refl eq_refl)
    as (created & st1 & Hc & _ & _ & _ & _ & m & st2 & Ha & _).
  exists created, st1. split; [exact Hc|]. now exists m, st2.
Defined.
